(** * SquareCut: the centred square crop of [src/App.tsx]

    A shallow embedding of the crop pipeline of the [App] component:
    the geometry computed in [handleAutoCrop], the state updates of
    [onFileChange], [reset], [handleAutoCrop] and [downloadImage], and the
    way these handlers interleave while decode and render are pending.

    Numbers.  A JavaScript number is a binary64 float.  The dimensions of
    an [HTMLImageElement] are integers ([unsigned long]), the subtraction
    of two of them is an integer, and halving an integer below [2^53] is
    exact in binary64.  The offsets are therefore modelled as rationals
    ([Q]), with no rounding anywhere, exactly as [/] behaves on those
    values. *)

From Stdlib Require Import ZArith QArith List String Bool Lia.
Import ListNotations.

Local Open Scope Z_scope.

(** ** Data model *)

(** The decoded image, as far as the code reads it: [img.width] and
    [img.height]. *)
Module Image.
Record t : Type := mk { width : Z; height : Z }.
End Image.

(** [Area] of [./types], as the object literal of [handleAutoCrop] builds
    it: four numbers. *)
Module Area.
Record t : Type := mk { x : Q; y : Q; width : Q; height : Q }.

(** Equality of the four numbers (rationals are compared by value). *)
Definition eq (a b : t) : Prop :=
  (x a == x b)%Q /\ (y a == y b)%Q /\
  (width a == width b)%Q /\ (height a == height b)%Q.
End Area.

Definition HTMLImageElement : Type := Image.t.

(** A thrown value ([err] of the [catch] clause). *)
Definition exn : Type := string.

(** The settlement of a promise: rejected with a value, or fulfilled. *)
Definition settled (A : Type) : Type := (exn + A)%type.

(** ** The crop geometry (lines 55-66 of [handleAutoCrop]) *)

(** Modelled from the spec: [getMinSideLength] of [./utils/imageUtils] is
    imported by [App.tsx] but its body is not among the sources; the spec
    gives [side = min(bitmap.width, bitmap.height)]. *)
Definition getMinSideLength (img : HTMLImageElement) : Z :=
  Z.min (Image.width img) (Image.height img).

(** [const startX = (img.width - minSide) / 2] *)
Definition startX (img : HTMLImageElement) : Q :=
  let minSide := getMinSideLength img in
  (inject_Z (Image.width img - minSide) / 2)%Q.

(** [const startY = (img.height - minSide) / 2] *)
Definition startY (img : HTMLImageElement) : Q :=
  let minSide := getMinSideLength img in
  (inject_Z (Image.height img - minSide) / 2)%Q.

(** [const pixelCrop: Area = { x: startX, y: startY, width: minSide,
    height: minSide }] *)
Definition pixelCrop (img : HTMLImageElement) : Area.t :=
  let minSide := getMinSideLength img in
  {| Area.x := startX img;
     Area.y := startY img;
     Area.width := inject_Z minSide;
     Area.height := inject_Z minSide |}.

(** A number is an integer when it is the image of some [Z]. *)
Definition is_integer (q : Q) : Prop := exists k : Z, (q == inject_Z k)%Q.

(** Modelled from the spec: the renderer [getCroppedImg] of
    [./utils/imageUtils] is not among the sources; the spec has it
    allocate a fresh pixel surface of [region.width] by [region.height],
    which is the size of the encoded output. *)
Definition surfaceSize (region : Area.t) : Q * Q :=
  (Area.width region, Area.height region).

(** ** Component state and the actions of the handlers *)

(** The four [useState] cells of [App]. *)
Record AppState : Type := mkState {
  imageSrc : option string;
  croppedImage : option string;
  isProcessing : bool;
  error : option string
}.

(** [useState] initial values. *)
Definition initialState : AppState :=
  {| imageSrc := None; croppedImage := None;
     isProcessing := false; error := None |}.

(** JavaScript truthiness of a [string | null]: [null] and the empty
    string are falsy. *)
Definition truthy (v : option string) : bool :=
  match v with
  | Some (String _ _) => true
  | _ => false
  end.

(** What a handler does to the outside: the state setters, the console,
    and the two calls into [./utils/imageUtils]. *)
Inductive action : Type :=
| SetImageSrc (v : option string)
| SetCroppedImage (v : option string)
| SetIsProcessing (b : bool)
| SetError (v : option string)
| ConsoleError (e : exn)
| CreateImage (url : string)
| GetCroppedImg (src : string) (crop : Area.t).

Definition apply_action (a : action) (s : AppState) : AppState :=
  match a with
  | SetImageSrc v =>
      {| imageSrc := v; croppedImage := croppedImage s;
         isProcessing := isProcessing s; error := error s |}
  | SetCroppedImage v =>
      {| imageSrc := imageSrc s; croppedImage := v;
         isProcessing := isProcessing s; error := error s |}
  | SetIsProcessing b =>
      {| imageSrc := imageSrc s; croppedImage := croppedImage s;
         isProcessing := b; error := error s |}
  | SetError v =>
      {| imageSrc := imageSrc s; croppedImage := croppedImage s;
         isProcessing := isProcessing s; error := v |}
  | ConsoleError _ | CreateImage _ | GetCroppedImg _ _ => s
  end.

Definition apply_actions (l : list action) (s : AppState) : AppState :=
  fold_left (fun st a => apply_action a st) l s.

(** ** Asynchronous handlers

    An [async] function is a tree: it returns, throws, performs a
    synchronous action, or suspends at an [await] of one of the two
    collaborators and resumes with the settlement of the promise. *)
Inductive Async (A : Type) : Type :=
| Return (a : A)
| Throw (e : exn)
| Do (a : action) (k : Async A)
| AwaitCreateImage (url : string)
    (k : settled HTMLImageElement -> Async A)
| AwaitGetCroppedImg (src : string) (crop : Area.t)
    (k : settled string -> Async A).

Arguments Return {A} a.
Arguments Throw {A} e.
Arguments Do {A} a k.
Arguments AwaitCreateImage {A} url k.
Arguments AwaitGetCroppedImg {A} src crop k.

Fixpoint bind {A B : Type} (p : Async A) (f : A -> Async B) : Async B :=
  match p with
  | Return a => f a
  | Throw e => Throw e
  | Do a k => Do a (bind k f)
  | AwaitCreateImage url k => AwaitCreateImage url (fun r => bind (k r) f)
  | AwaitGetCroppedImg src crop k =>
      AwaitGetCroppedImg src crop (fun r => bind (k r) f)
  end.

Notation "x <- p ;; q" := (bind p (fun x => q))
  (at level 61, p at next level, right associativity).
Notation "p ;; q" := (bind p (fun _ => q))
  (at level 61, right associativity).

(** [try { p } catch (err) { h err }] *)
Fixpoint try_catch {A : Type} (p : Async A) (h : exn -> Async A) : Async A :=
  match p with
  | Return a => Return a
  | Throw e => h e
  | Do a k => Do a (try_catch k h)
  | AwaitCreateImage url k =>
      AwaitCreateImage url (fun r => try_catch (k r) h)
  | AwaitGetCroppedImg src crop k =>
      AwaitGetCroppedImg src crop (fun r => try_catch (k r) h)
  end.

(** [try { p } finally { f }]: [f] runs on the normal and on the
    exceptional exit, and the completion of [p] is kept when [f]
    completes normally. *)
Fixpoint finally {A : Type} (p : Async A) (f : Async unit) : Async A :=
  match p with
  | Return a => f ;; Return a
  | Throw e => f ;; Throw e
  | Do a k => Do a (finally k f)
  | AwaitCreateImage url k =>
      AwaitCreateImage url (fun r => finally (k r) f)
  | AwaitGetCroppedImg src crop k =>
      AwaitGetCroppedImg src crop (fun r => finally (k r) f)
  end.

Definition do (a : action) : Async unit := Do a (Return tt).

(** [await p]: the value of a fulfilled promise, a throw of the reason
    of a rejected one. *)
Definition resume {A : Type} (r : settled A) : Async A :=
  match r with
  | inl e => Throw e
  | inr a => Return a
  end.

Definition await_createImage (url : string) : Async HTMLImageElement :=
  AwaitCreateImage url resume.

Definition await_getCroppedImg (src : string) (crop : Area.t)
  : Async string :=
  AwaitGetCroppedImg src crop resume.

Definition processingFailed : string :=
  "Failed to process image. Please try another one.".

(** [handleAutoCrop] (lines 49-76).  [imageSrc] is the value the closure
    captured at the render the handler belongs to. *)
Definition handleAutoCrop (imageSrc : option string) : Async unit :=
  match imageSrc with
  | Some (String _ _ as imageSrc) =>
      do (SetIsProcessing true) ;;
      finally
        (try_catch
           (img <- await_createImage imageSrc ;;
            croppedResult <- await_getCroppedImg imageSrc (pixelCrop img) ;;
            do (SetCroppedImage (Some croppedResult)))
           (fun err =>
              do (ConsoleError err) ;;
              do (SetError (Some processingFailed))))
        (do (SetIsProcessing false))
  | _ => Return tt (* if (!imageSrc) return; *)
  end.

(** [reset] (lines 42-47); clearing the value of the file input is not
    part of the component state. *)
Definition reset : list action :=
  [SetImageSrc None; SetCroppedImage None; SetError None].

(** [reader.onload] of [onFileChange] (lines 33-37), with
    [reader.result] the data URL read from the file. *)
Definition onload (result : string) : list action :=
  [SetImageSrc (Some result); SetCroppedImage None; SetError None].

(** ** Download (lines 78-86) *)

(** The [<a>] element that [downloadImage] builds. *)
Record Anchor : Type := mkAnchor { href : string; download : string }.

Inductive dom_action : Type :=
| AppendChild (link : Anchor)
| Click (link : Anchor)
| RemoveChild (link : Anchor).

Definition downloadImage (croppedImage : option string) : list dom_action :=
  match croppedImage with
  | Some (String _ _ as croppedImage) =>
      let link := {| href := croppedImage; download := "square-crop.jpg" |} in
      [AppendChild link; Click link; RemoveChild link]
  | _ => [] (* if (!croppedImage) return; *)
  end.

(** ** One run of a handler with no other event in between

    The two collaborators are given as the settlement each call would
    reach.  The run returns the actions in program order, the final
    state and the completion. *)
Section Run.
Variable createImage : string -> settled HTMLImageElement.
Variable getCroppedImg : string -> Area.t -> settled string.

Fixpoint run {A : Type} (p : Async A) (s : AppState)
  : list action * AppState * settled A :=
  match p with
  | Return a => ([], s, inr a)
  | Throw e => ([], s, inl e)
  | Do a k =>
      let '(tr, s', r) := run k (apply_action a s) in (a :: tr, s', r)
  | AwaitCreateImage url k =>
      let '(tr, s', r) := run (k (createImage url)) s in
      (CreateImage url :: tr, s', r)
  | AwaitGetCroppedImg src crop k =>
      let '(tr, s', r) := run (k (getCroppedImg src crop)) s in
      (GetCroppedImg src crop :: tr, s', r)
  end.

(** A click on the crop button in state [s], run to its end. *)
Definition cropRun (s : AppState) : list action * AppState * settled unit :=
  run (handleAutoCrop (imageSrc s)) s.

Definition cropTrace (s : AppState) : list action := fst (fst (cropRun s)).
Definition cropFinal (s : AppState) : AppState := snd (fst (cropRun s)).
Definition cropCompletion (s : AppState) : settled unit :=
  snd (cropRun s).
End Run.

(** The state a run that passed the guard ends in. *)
Definition afterCrop (s : AppState) (cropped error' : option string)
  : AppState :=
  {| imageSrc := imageSrc s; croppedImage := cropped;
     isProcessing := false; error := error' |}.

(** ** The component as an event-driven system

    Decode, render and file reading are asynchronous: between the start
    of a handler and the settlement it awaits, other events of the page
    are served.  A configuration holds the component state, the file
    reads that have not fired [onload] yet (by the data URL each will
    produce), the suspended runs of [handleAutoCrop], and the DOM actions
    performed by [downloadImage]. *)

(** A file of the input element, by what [readAsDataURL] reads from it. *)
Record File : Type := mkFile { readAsDataURL : string }.

Record Config : Type := mkConfig {
  state : AppState;
  readers : list string;
  tasks : list (Async unit);
  dom : list dom_action
}.

Definition initialConfig : Config :=
  {| state := initialState; readers := []; tasks := []; dom := [] |}.

Inductive event : Type :=
| FileChange (files : option (list File))
| ReaderLoad (n : nat)
| ClickCrop
| ClickReset
| ClickDownload
| CreateImageSettled (n : nat) (r : settled HTMLImageElement)
| GetCroppedImgSettled (n : nat) (r : settled string).

(** The synchronous part of a run: up to its next [await] or its end. *)
Fixpoint advance {A : Type} (p : Async A) (s : AppState)
  : AppState * Async A :=
  match p with
  | Do a k => advance k (apply_action a s)
  | _ => (s, p)
  end.

Definition suspended {A : Type} (p : Async A) : bool :=
  match p with
  | AwaitCreateImage _ _ | AwaitGetCroppedImg _ _ _ => true
  | _ => false
  end.

Fixpoint remove_nth {A : Type} (n : nat) (l : list A) : list A :=
  match l, n with
  | [], _ => []
  | _ :: t, O => t
  | h :: t, S m => h :: remove_nth m t
  end.

Fixpoint replace_nth {A : Type} (n : nat) (a : A) (l : list A) : list A :=
  match l, n with
  | [], _ => []
  | _ :: t, O => a :: t
  | h :: t, S m => h :: replace_nth m a t
  end.

(** What the JSX renders (lines 113-203): the file input exists only
    while no source is loaded; the crop button only while there is no
    result, disabled while processing; the download button only with a
    result; reset is the secondary button next to download, or the cancel
    button, which is disabled while processing. *)
Definition fileInputMounted (s : AppState) : bool :=
  negb (truthy (imageSrc s)).

Definition cropButtonEnabled (s : AppState) : bool :=
  truthy (imageSrc s) && negb (truthy (croppedImage s))
  && negb (isProcessing s).

Definition downloadButtonRendered (s : AppState) : bool :=
  truthy (imageSrc s) && truthy (croppedImage s).

Definition resetButtonEnabled (s : AppState) : bool :=
  truthy (imageSrc s)
  && (truthy (croppedImage s) || negb (isProcessing s)).

(** [onFileChange] (lines 29-40): a read of the first file starts. *)
Definition onFileChange (files : option (list File)) (c : Config)
  : Config :=
  match files with
  | Some (file :: _) =>
      {| state := state c; readers := readers c ++ [readAsDataURL file];
         tasks := tasks c; dom := dom c |}
  | _ => c
  end.

(** Task [n] goes on as [p] until it suspends again or ends. *)
Definition continue (n : nat) (p : Async unit) (c : Config) : Config :=
  let '(s', p') := advance p (state c) in
  {| state := s'; readers := readers c;
     tasks := if suspended p' then replace_nth n p' (tasks c)
              else remove_nth n (tasks c);
     dom := dom c |}.

(** A click on the crop button starts a run of [handleAutoCrop], closed
    over the [imageSrc] of the current render. *)
Definition startCrop (c : Config) : Config :=
  let '(s', p') := advance (handleAutoCrop (imageSrc (state c))) (state c) in
  {| state := s'; readers := readers c;
     tasks := if suspended p' then tasks c ++ [p'] else tasks c;
     dom := dom c |}.

(** One event; [None] when the page cannot produce it in [c]. *)
Definition step (e : event) (c : Config) : option Config :=
  match e with
  | FileChange files =>
      if fileInputMounted (state c) then Some (onFileChange files c)
      else None
  | ReaderLoad n =>
      match nth_error (readers c) n with
      | Some result =>
          Some {| state := apply_actions (onload result) (state c);
                  readers := remove_nth n (readers c);
                  tasks := tasks c; dom := dom c |}
      | None => None
      end
  | ClickCrop =>
      if cropButtonEnabled (state c) then Some (startCrop c) else None
  | ClickReset =>
      if resetButtonEnabled (state c)
      then Some {| state := apply_actions reset (state c);
                   readers := readers c; tasks := tasks c; dom := dom c |}
      else None
  | ClickDownload =>
      if downloadButtonRendered (state c)
      then Some {| state := state c; readers := readers c;
                   tasks := tasks c;
                   dom := dom c ++ downloadImage (croppedImage (state c)) |}
      else None
  | CreateImageSettled n r =>
      match nth_error (tasks c) n with
      | Some (AwaitCreateImage _ k) => Some (continue n (k r) c)
      | _ => None
      end
  | GetCroppedImgSettled n r =>
      match nth_error (tasks c) n with
      | Some (AwaitGetCroppedImg _ _ k) => Some (continue n (k r) c)
      | _ => None
      end
  end.

Fixpoint exec (evs : list event) (c : Config) : option Config :=
  match evs with
  | [] => Some c
  | e :: evs' =>
      match step e c with
      | Some c' => exec evs' c'
      | None => None
      end
  end.

Inductive reachable : Config -> Prop :=
| reachable_initial : reachable initialConfig
| reachable_step (e : event) (c c' : Config) :
    reachable c -> step e c = Some c' -> reachable c'.

(** The two points at which a run of [handleAutoCrop] is suspended. *)
Definition crop_handler (err : exn) : Async unit :=
  do (ConsoleError err) ;; do (SetError (Some processingFailed)).

Definition awaiting_decode (src : string) : Async unit :=
  AwaitCreateImage src (fun r =>
    finally
      (try_catch
         (img <- resume r ;;
          croppedResult <- await_getCroppedImg src (pixelCrop img) ;;
          do (SetCroppedImage (Some croppedResult)))
         crop_handler)
      (do (SetIsProcessing false))).

Definition awaiting_render (src : string) (crop : Area.t) : Async unit :=
  AwaitGetCroppedImg src crop (fun r =>
    finally
      (try_catch
         (croppedResult <- resume r ;;
          do (SetCroppedImage (Some croppedResult)))
         crop_handler)
      (do (SetIsProcessing false))).

Inductive in_flight : Async unit -> Prop :=
| in_flight_decode (src : string) : in_flight (awaiting_decode src)
| in_flight_render (src : string) (img : HTMLImageElement) :
    in_flight (awaiting_render src (pixelCrop img)).

(** The request-identity guard of the spec, as a property of the system:
    when the render of a run started for [src] is fulfilled while the
    current source is another one, the stored result does not change. *)
Definition stale_completion_discarded : Prop :=
  forall (c c' : Config) (n : nat) (src : string) (crop : Area.t)
         (k : settled string -> Async unit) (res : string),
    reachable c ->
    nth_error (tasks c) n = Some (AwaitGetCroppedImg src crop k) ->
    imageSrc (state c) <> Some src ->
    step (GetCroppedImgSettled n (inr res)) c = Some c' ->
    croppedImage (state c') = croppedImage (state c).

(** What the page maintains: at most one run of [handleAutoCrop] is in
    flight; the flag is set exactly while one is, and no result is stored
    during that time. *)
Definition ui_invariant (c : Config) : Prop :=
  match tasks c with
  | [] => isProcessing (state c) = false
  | [p] => in_flight p /\ isProcessing (state c) = true /\
           truthy (croppedImage (state c)) = false
  | _ => False
  end.

(** ** Sample collaborators and inputs, for the concrete runs below *)

Definition portrait : HTMLImageElement := Image.mk 400 800.
Definition oddPortrait : HTMLImageElement := Image.mk 401 800.

Definition sourceA : string := "data:image/png;base64,AAAA".
Definition sourceB : string := "data:image/png;base64,BBBB".
Definition cropOfA : string := "data:image/jpeg;base64,crop-of-A".

Definition decodeOk (img : HTMLImageElement)
  : string -> settled HTMLImageElement :=
  fun _ => inr img.
Definition decodeFails : string -> settled HTMLImageElement :=
  fun _ => inl "decode error"%string.
Definition renderOk (res : string) : string -> Area.t -> settled string :=
  fun _ _ => inr res.
Definition renderFails : string -> Area.t -> settled string :=
  fun _ _ => inl "render error"%string.

(** A source is loaded and nothing else has happened. *)
Definition loadedA : AppState :=
  {| imageSrc := Some sourceA; croppedImage := None;
     isProcessing := false; error := None |}.

(** A result is stored. *)
Definition croppedA : AppState :=
  {| imageSrc := Some sourceA; croppedImage := Some cropOfA;
     isProcessing := false; error := None |}.

(** Two files are picked before either read fires; the first loads and
    is cropped; the second loads while the render of the first is
    pending. *)
Definition staleRun : list event :=
  [FileChange (Some [mkFile sourceA]);
   FileChange (Some [mkFile sourceB]);
   ReaderLoad 0;
   ClickCrop;
   CreateImageSettled 0 (inr portrait);
   ReaderLoad 0].

Definition staleConfig : Config :=
  {| state := {| imageSrc := Some sourceB; croppedImage := None;
                 isProcessing := true; error := None |};
     readers := [];
     tasks := [awaiting_render sourceA (pixelCrop portrait)];
     dom := [] |}.

(** Before the second read fires. *)
Definition raceConfig : Config :=
  {| state := {| imageSrc := Some sourceA; croppedImage := None;
                 isProcessing := true; error := None |};
     readers := [sourceB];
     tasks := [awaiting_render sourceA (pixelCrop portrait)];
     dom := [] |}.

Definition raceRun : list event :=
  [FileChange (Some [mkFile sourceA]);
   FileChange (Some [mkFile sourceB]);
   ReaderLoad 0;
   ClickCrop;
   CreateImageSettled 0 (inr portrait)].

Definition isSetError (a : action) : bool :=
  match a with SetError _ => true | _ => false end.

(** ** Further definitions: the download log, uninterrupted runs, and
    the [Button] component *)

(** The DOM actions of a sequence of downloads: each one appends, clicks
    and removes one link named [square-crop.jpg] whose target is not
    empty. *)
Inductive download_log : list dom_action -> Prop :=
| download_log_nil : download_log []
| download_log_snoc (l : list dom_action) (link : Anchor) :
    download_log l ->
    download link = "square-crop.jpg"%string ->
    href link <> EmptyString ->
    download_log (l ++ [AppendChild link; Click link; RemoveChild link]).

(** A click on the crop button served with nothing in between: the
    decode settles as [createImage] says and, when it is fulfilled, the
    render as [getCroppedImg] says. *)
Definition uninterrupted
    (createImage : string -> settled HTMLImageElement)
    (getCroppedImg : string -> Area.t -> settled string)
    (src : string) : list event :=
  ClickCrop :: CreateImageSettled 0 (createImage src) ::
  match createImage src with
  | inr img => [GetCroppedImgSettled 0 (getCroppedImg src (pixelCrop img))]
  | inl _ => []
  end.

(** One source loaded, a second read still pending, nothing in flight. *)
Definition pendingRun : list event :=
  [FileChange (Some [mkFile sourceA]);
   FileChange (Some [mkFile sourceB]);
   ReaderLoad 0].

Definition pendingConfig : Config :=
  {| state := loadedA; readers := [sourceB]; tasks := []; dom := [] |}.

(** [components/Button.tsx]: the class string of the rendered
    [<button>]. *)
Module Button.
Inductive variant : Type := primary | secondary | danger | ghost.
Inductive size : Type := sm | md | lg.

Definition baseStyles : string :=
  "inline-flex items-center justify-center font-medium transition-all duration-200 rounded-lg focus:outline-none focus:ring-2 focus:ring-offset-2 disabled:opacity-50 disabled:cursor-not-allowed".

Definition variants (v : variant) : string :=
  match v with
  | primary =>
      "bg-indigo-600 text-white hover:bg-indigo-700 focus:ring-indigo-500 shadow-sm"
  | secondary =>
      "bg-white text-gray-700 border border-gray-300 hover:bg-gray-50 focus:ring-indigo-500 shadow-sm"
  | danger =>
      "bg-red-600 text-white hover:bg-red-700 focus:ring-red-500 shadow-sm"
  | ghost =>
      "bg-transparent text-gray-600 hover:bg-gray-100 focus:ring-gray-400"
  end.

Definition sizes (s : size) : string :=
  match s with
  | sm => "px-3 py-1.5 text-sm"
  | md => "px-4 py-2 text-base"
  | lg => "px-6 py-3 text-lg"
  end.

(** A destructured prop with a default: the default applies when the
    prop is not given. *)
Definition withDefault {A : Type} (d : A) (v : option A) : A :=
  match v with
  | Some a => a
  | None => d
  end.

(** The template literal of line 35, with the defaults of lines 12, 13
    and 15. *)
Definition className (variant : option variant) (size : option size)
    (className : option string) : string :=
  let variant := withDefault primary variant in
  let size := withDefault md size in
  let className := withDefault EmptyString className in
  (baseStyles ++ " " ++ variants variant ++ " " ++ sizes size ++ " "
   ++ className)%string.
End Button.

(** * Properties *)

(** ** The planned region *)

(** An odd number of pixels, halved, is not a whole number of pixels. *)
Lemma half_of_odd_not_integer (d : Z) :
  Z.odd d = true -> ~ is_integer (inject_Z d / 2)%Q.
Proof.
  intros Hodd [k Hk].
  apply Z.odd_spec in Hodd. destruct Hodd as [m Hm].
  unfold Qeq in Hk; simpl in Hk. lia.
Qed.

Lemma half_of_odd_value (d : Z) :
  Z.odd d = true -> (inject_Z d / 2 == inject_Z (d / 2) + (1 # 2))%Q.
Proof.
  intros Hodd. apply Z.odd_spec in Hodd. destruct Hodd as [m Hm].
  assert (Hdiv : d / 2 = m) by (subst d; Z.div_mod_to_equations; lia).
  rewrite Hdiv. unfold Qeq; simpl. lia.
Qed.

(** C1: for a decoded bitmap of positive width [w] and height [h] the
    planned region has width and height [min w h] and offsets
    [x = (w - min w h) / 2], [y = (h - min w h) / 2]. *)
Theorem pixelCrop_centred_square (img : HTMLImageElement)
    (Hw : 0 < Image.width img) (Hh : 0 < Image.height img) :
  let w := Image.width img in
  let h := Image.height img in
  (Area.width (pixelCrop img) == inject_Z (Z.min w h))%Q /\
  (Area.height (pixelCrop img) == inject_Z (Z.min w h))%Q /\
  (Area.x (pixelCrop img) == (inject_Z w - inject_Z (Z.min w h)) / 2)%Q /\
  (Area.y (pixelCrop img) == (inject_Z h - inject_Z (Z.min w h)) / 2)%Q.
Proof.
  destruct img as [w h]; simpl in *.
  unfold startX, startY, getMinSideLength; simpl.
  repeat split; try reflexivity; unfold Qeq; simpl; lia.
Qed.

(** The 400x800 scenario: the region is [{x:0, y:200, width:400,
    height:400}]. *)
Lemma pixelCrop_centred_square_400x800 :
  0 < Image.width portrait /\ 0 < Image.height portrait /\
  Area.eq (pixelCrop portrait)
    {| Area.x := 0; Area.y := 200; Area.width := 400; Area.height := 400 |}.
Proof.
  assert (Hw : 0 < Image.width portrait) by (simpl; lia).
  assert (Hh : 0 < Image.height portrait) by (simpl; lia).
  split; [exact Hw | split; [exact Hh |]].
  destruct (pixelCrop_centred_square portrait Hw Hh) as (Ewd & Eht & Ex & Ey).
  unfold Area.eq; simpl.
  split; [| split; [| split]].
  - eapply Qeq_trans; [exact Ex | reflexivity].
  - eapply Qeq_trans; [exact Ey | reflexivity].
  - eapply Qeq_trans; [exact Ewd | reflexivity].
  - eapply Qeq_trans; [exact Eht | reflexivity].
Defined.

(** C2, as the spec has it, fails at 401x800: the planned [y] is 199.5,
    which is neither 199 nor 200 and not an integer. *)
Lemma pixelCrop_401x800_not_rounded :
  (Area.y (pixelCrop oddPortrait) == 399 # 2)%Q /\
  ~ (Area.y (pixelCrop oddPortrait) == 199)%Q /\
  ~ (Area.y (pixelCrop oddPortrait) == 200)%Q /\
  ~ is_integer (Area.y (pixelCrop oddPortrait)).
Proof.
  split; [reflexivity |].
  split; [intro H; unfold Qeq in H; simpl in H; lia |].
  split; [intro H; unfold Qeq in H; simpl in H; lia |].
  intros [k Hk]. unfold Qeq in Hk; simpl in Hk. lia.
Qed.

(** C2, amended: no rounding is applied.  When the longer dimension
    exceeds the side by an odd number [d] of pixels, the offset along the
    shorter dimension is 0 and the offset along the longer one is the
    exact half [floor(d/2) + 1/2], which is not an integer. *)
Theorem pixelCrop_odd_difference_exact_half (img : HTMLImageElement)
    (Hodd : Z.odd (Z.max (Image.width img) (Image.height img)
                   - getMinSideLength img) = true) :
  let w := Image.width img in
  let h := Image.height img in
  let side := getMinSideLength img in
  (w < h /\
   (Area.x (pixelCrop img) == 0)%Q /\
   (Area.y (pixelCrop img) == inject_Z ((h - side) / 2) + (1 # 2))%Q /\
   ~ is_integer (Area.y (pixelCrop img)))
  \/
  (h < w /\
   (Area.y (pixelCrop img) == 0)%Q /\
   (Area.x (pixelCrop img) == inject_Z ((w - side) / 2) + (1 # 2))%Q /\
   ~ is_integer (Area.x (pixelCrop img))).
Proof.
  destruct img as [w h]; simpl in *.
  unfold getMinSideLength in *; simpl in *.
  destruct (Z.lt_trichotomy w h) as [Hlt | [Heq | Hgt]].
  - left. split; [exact Hlt |].
    replace (Z.max w h - Z.min w h) with (h - Z.min w h) in Hodd by lia.
    split; [| split].
    + unfold startX, getMinSideLength, Qeq; simpl; lia.
    + unfold startY, getMinSideLength; simpl.
      apply half_of_odd_value; exact Hodd.
    + unfold startY, getMinSideLength; simpl.
      apply half_of_odd_not_integer; exact Hodd.
  - exfalso. subst h.
    replace (Z.max w w - Z.min w w) with 0 in Hodd by lia.
    discriminate Hodd.
  - right. split; [lia |].
    replace (Z.max w h - Z.min w h) with (w - Z.min w h) in Hodd by lia.
    split; [| split].
    + unfold startY, getMinSideLength, Qeq; simpl; lia.
    + unfold startX, getMinSideLength; simpl.
      apply half_of_odd_value; exact Hodd.
    + unfold startX, getMinSideLength; simpl.
      apply half_of_odd_not_integer; exact Hodd.
Qed.

Lemma pixelCrop_odd_difference_401x800 :
  Z.odd (Z.max (Image.width oddPortrait) (Image.height oddPortrait)
         - getMinSideLength oddPortrait) = true /\
  ((Image.width oddPortrait < Image.height oddPortrait /\
    (Area.x (pixelCrop oddPortrait) == 0)%Q /\
    (Area.y (pixelCrop oddPortrait) ==
     inject_Z ((Image.height oddPortrait - getMinSideLength oddPortrait) / 2)
     + (1 # 2))%Q /\
    ~ is_integer (Area.y (pixelCrop oddPortrait)))
   \/
   (Image.height oddPortrait < Image.width oddPortrait /\
    (Area.y (pixelCrop oddPortrait) == 0)%Q /\
    (Area.x (pixelCrop oddPortrait) ==
     inject_Z ((Image.width oddPortrait - getMinSideLength oddPortrait) / 2)
     + (1 # 2))%Q /\
    ~ is_integer (Area.x (pixelCrop oddPortrait)))).
Proof.
  split; [reflexivity |].
  apply (pixelCrop_odd_difference_exact_half oddPortrait). reflexivity.
Defined.

(** C3: the planned region lies inside the source: the offsets are not
    negative, [x + width <= w] and [y + height <= h]. *)
Theorem pixelCrop_within_bounds (img : HTMLImageElement)
    (Hw : 0 < Image.width img) (Hh : 0 < Image.height img) :
  (0 <= Area.x (pixelCrop img))%Q /\
  (0 <= Area.y (pixelCrop img))%Q /\
  (Area.x (pixelCrop img) + Area.width (pixelCrop img)
   <= inject_Z (Image.width img))%Q /\
  (Area.y (pixelCrop img) + Area.height (pixelCrop img)
   <= inject_Z (Image.height img))%Q.
Proof.
  destruct img as [w h]; simpl in *.
  unfold startX, startY, getMinSideLength; simpl.
  repeat split; unfold Qle; simpl; lia.
Qed.

Lemma pixelCrop_within_bounds_400x800 :
  0 < Image.width portrait /\ 0 < Image.height portrait /\
  (0 <= Area.x (pixelCrop portrait))%Q /\
  (0 <= Area.y (pixelCrop portrait))%Q /\
  (Area.x (pixelCrop portrait) + Area.width (pixelCrop portrait)
   <= inject_Z (Image.width portrait))%Q /\
  (Area.y (pixelCrop portrait) + Area.height (pixelCrop portrait)
   <= inject_Z (Image.height portrait))%Q.
Proof.
  split; [simpl; lia | split; [simpl; lia |]].
  apply (pixelCrop_within_bounds portrait); simpl; lia.
Defined.

(** C4: for a square bitmap ([w = h]) the planned region is the whole
    image, [{x:0, y:0, width:w, height:w}]. *)
Theorem pixelCrop_square_identity (img : HTMLImageElement)
    (Hsq : Image.width img = Image.height img) :
  Area.eq (pixelCrop img)
    {| Area.x := 0; Area.y := 0;
       Area.width := inject_Z (Image.width img);
       Area.height := inject_Z (Image.height img) |}.
Proof.
  destruct img as [w h]; simpl in *. subst h.
  unfold Area.eq, pixelCrop, startX, startY, getMinSideLength.
  cbn [Area.x Area.y Area.width Area.height Image.width Image.height].
  rewrite Z.min_id, Z.sub_diag.
  repeat split; reflexivity.
Qed.

Lemma pixelCrop_square_identity_500x500 :
  Image.width (Image.mk 500 500) = Image.height (Image.mk 500 500) /\
  Area.eq (pixelCrop (Image.mk 500 500))
    {| Area.x := 0; Area.y := 0;
       Area.width := inject_Z (Image.width (Image.mk 500 500));
       Area.height := inject_Z (Image.height (Image.mk 500 500)) |}.
Proof.
  split; [reflexivity |].
  apply (pixelCrop_square_identity (Image.mk 500 500)). reflexivity.
Defined.

(** ** One run of [handleAutoCrop] *)

Section RunProperties.
Variable createImage : string -> settled HTMLImageElement.
Variable getCroppedImg : string -> Area.t -> settled string.

(** The three ways a run that passed the guard goes. *)
Lemma run_handleAutoCrop (s : AppState) (src : string) :
  imageSrc s = Some src -> src <> EmptyString ->
  cropRun createImage getCroppedImg s =
  match createImage src with
  | inl e =>
      ([SetIsProcessing true; CreateImage src; ConsoleError e;
        SetError (Some processingFailed); SetIsProcessing false],
       afterCrop s (croppedImage s) (Some processingFailed), inr tt)
  | inr img =>
      match getCroppedImg src (pixelCrop img) with
      | inl e =>
          ([SetIsProcessing true; CreateImage src;
            GetCroppedImg src (pixelCrop img); ConsoleError e;
            SetError (Some processingFailed); SetIsProcessing false],
           afterCrop s (croppedImage s) (Some processingFailed), inr tt)
      | inr res =>
          ([SetIsProcessing true; CreateImage src;
            GetCroppedImg src (pixelCrop img);
            SetCroppedImage (Some res); SetIsProcessing false],
           afterCrop s (Some res) (error s), inr tt)
      end
  end.
Proof.
  intros Hsrc Hne. unfold cropRun. rewrite Hsrc.
  destruct src as [| ch rest]; [congruence |].
  cbn. destruct (createImage (String ch rest)) as [e | img]; cbn.
  - reflexivity.
  - destruct (getCroppedImg (String ch rest) (pixelCrop img)) as [e | res];
      cbn; reflexivity.
Qed.

(** With a falsy [imageSrc] the guard returns at once. *)
Lemma run_handleAutoCrop_falsy (s : AppState) :
  truthy (imageSrc s) = false -> cropRun createImage getCroppedImg s = ([], s, inr tt).
Proof.
  unfold cropRun. destruct (imageSrc s) as [[| ch rest] |]; cbn;
    intros H; try reflexivity; discriminate H.
Qed.

(** C5: when decode or render throws, the run calls [setCroppedImage]
    not at all, so the cropped result stays what it was (absent when it
    was absent); it sets the processing-failed message, once, and the
    exception does not leave the handler. *)
Theorem failed_stage_no_output (s : AppState) (src : string)
    (Hsrc : imageSrc s = Some src) (Hne : src <> EmptyString)
    (Hfail : (exists e, createImage src = inl e) \/
             (exists img e, createImage src = inr img /\
                            getCroppedImg src (pixelCrop img) = inl e)) :
  let tr := cropTrace createImage getCroppedImg s in
  let s' := cropFinal createImage getCroppedImg s in
  (forall v, ~ In (SetCroppedImage v) tr) /\
  croppedImage s' = croppedImage s /\
  (croppedImage s = None -> croppedImage s' = None) /\
  error s' = Some processingFailed /\
  filter isSetError tr = [SetError (Some processingFailed)] /\
  cropCompletion createImage getCroppedImg s = inr tt.
Proof.
  unfold cropTrace, cropFinal, cropCompletion.
rewrite (run_handleAutoCrop s src Hsrc Hne).
  destruct Hfail as [[e He] | (img & e & Hi & He)].
  - rewrite He. cbn.
    repeat split; auto.
    intros v [H | [H | [H | [H | [H | []]]]]]; discriminate H.
  - rewrite Hi, He. cbn.
    repeat split; auto.
    intros v [H | [H | [H | [H | [H | [H | []]]]]]]; discriminate H.
Qed.

(** C6: in every run, a region handed to the renderer is the one planned
    from the image decoded from the current source; its width and
    height are both the shorter dimension of that image, and so is the
    surface the renderer allocates for it. *)
Theorem renderer_gets_min_square (s : AppState) (src : string)
    (crop : Area.t)
    (Hcall : In (GetCroppedImg src crop) (cropTrace createImage getCroppedImg s)) :
  exists img,
    imageSrc s = Some src /\ createImage src = inr img /\
    crop = pixelCrop img /\
    let side := inject_Z (Z.min (Image.width img) (Image.height img)) in
    (Area.width crop == side)%Q /\ (Area.height crop == side)%Q /\
    (fst (surfaceSize crop) == side)%Q /\
    (snd (surfaceSize crop) == side)%Q.
Proof.
  unfold cropTrace in Hcall.
  destruct (truthy (imageSrc s)) eqn:Ht.
  - destruct (imageSrc s) as [src0 |] eqn:Hsrc; [| discriminate Ht].
    assert (Hne : src0 <> EmptyString) by (intro; subst; discriminate Ht).
    rewrite (run_handleAutoCrop s src0 Hsrc Hne) in Hcall.
    destruct (createImage src0) as [e | img] eqn:Hdec.
    + cbn in Hcall.
      destruct Hcall as [H | [H | [H | [H | [H | []]]]]]; discriminate H.
    + assert (Hin : GetCroppedImg src crop
                    = GetCroppedImg src0 (pixelCrop img)).
      { destruct (getCroppedImg src0 (pixelCrop img)); cbn in Hcall.
        - destruct Hcall as [H | [H | [H | [H | [H | [H | []]]]]]];
            try discriminate H; symmetry; exact H.
        - destruct Hcall as [H | [H | [H | [H | [H | []]]]]];
            try discriminate H; symmetry; exact H. }
      injection Hin as -> ->.
      exists img. split; [reflexivity |]. split; [exact Hdec |].
      split; [reflexivity |].
      cbn. unfold getMinSideLength. repeat split; reflexivity.
  - rewrite (run_handleAutoCrop_falsy s Ht) in Hcall. destruct Hcall.
Qed.

(** A run that passes the source guard sets the flag first and resets it
    last, whatever the two stages do, and ends with the flag false and no
    exception. *)
Lemma started_run_resets_isProcessing (s : AppState) (src : string)
    (Hsrc : imageSrc s = Some src) (Hne : src <> EmptyString) :
  (exists mid,
      cropTrace createImage getCroppedImg s
      = SetIsProcessing true :: mid ++ [SetIsProcessing false]) /\
  isProcessing (cropFinal createImage getCroppedImg s) = false /\
  cropCompletion createImage getCroppedImg s = inr tt.
Proof.
  unfold cropTrace, cropFinal, cropCompletion.
  rewrite (run_handleAutoCrop s src Hsrc Hne).
  destruct (createImage src) as [e | img].
  - split; [| split; reflexivity].
    exists [CreateImage src; ConsoleError e;
            SetError (Some processingFailed)]. reflexivity.
  - destruct (getCroppedImg src (pixelCrop img)) as [e | res].
    + split; [| split; reflexivity].
      exists [CreateImage src; GetCroppedImg src (pixelCrop img);
              ConsoleError e; SetError (Some processingFailed)].
      reflexivity.
    + split; [| split; reflexivity].
      exists [CreateImage src; GetCroppedImg src (pixelCrop img);
              SetCroppedImage (Some res)].
      reflexivity.
Qed.

(** C10: with no source loaded the handler does nothing: no action, the
    same state, a normal return. *)
Theorem no_source_no_op (s : AppState) (Hnull : imageSrc s = None) :
  cropTrace createImage getCroppedImg s = [] /\
  cropFinal createImage getCroppedImg s = s /\
  cropCompletion createImage getCroppedImg s = inr tt.
Proof.
  unfold cropTrace, cropFinal, cropCompletion.
  rewrite run_handleAutoCrop_falsy by (rewrite Hnull; reflexivity).
  repeat split.
Qed.
End RunProperties.

(** ** Witnesses and concrete runs of the handler *)

Lemma failed_stage_no_output_decode :
  imageSrc loadedA = Some sourceA /\ sourceA <> EmptyString /\
  croppedImage (cropFinal decodeFails (renderOk cropOfA) loadedA) = None /\
  error (cropFinal decodeFails (renderOk cropOfA) loadedA)
  = Some processingFailed /\
  filter isSetError (cropTrace decodeFails (renderOk cropOfA) loadedA)
  = [SetError (Some processingFailed)].
Proof.
  assert (Hsrc : imageSrc loadedA = Some sourceA) by reflexivity.
  assert (Hne : sourceA <> EmptyString) by discriminate.
  assert (Hfail :
    (exists e, decodeFails sourceA = inl e) \/
    (exists img e, decodeFails sourceA = inr img /\
                   renderOk cropOfA sourceA (pixelCrop img) = inl e)).
  { left. exists "decode error"%string. reflexivity. }
  destruct (failed_stage_no_output decodeFails (renderOk cropOfA)
              loadedA sourceA Hsrc Hne Hfail)
    as (_ & _ & Habsent & Herr & Hone & _).
  split; [exact Hsrc | split; [exact Hne |]].
  split; [apply Habsent; reflexivity | split; [exact Herr | exact Hone]].
Defined.

Lemma renderer_gets_min_square_portrait :
  In (GetCroppedImg sourceA (pixelCrop portrait))
     (cropTrace (decodeOk portrait) (renderOk cropOfA) loadedA) /\
  (Area.width (pixelCrop portrait) == 400)%Q /\
  (Area.height (pixelCrop portrait) == 400)%Q.
Proof.
  assert (Hcall : In (GetCroppedImg sourceA (pixelCrop portrait))
     (cropTrace (decodeOk portrait) (renderOk cropOfA) loadedA)).
  { right. right. left. reflexivity. }
  split; [exact Hcall |].
  destruct (renderer_gets_min_square (decodeOk portrait) (renderOk cropOfA)
              loadedA sourceA (pixelCrop portrait) Hcall)
    as (img & _ & Hdec & _ & Hwd & Hht & _).
  injection Hdec as <-.
  split; [exact Hwd | exact Hht].
Defined.

Lemma no_source_no_op_initial :
  imageSrc initialState = None /\
  cropTrace decodeFails renderFails initialState = [] /\
  cropFinal decodeFails renderFails initialState = initialState /\
  cropCompletion decodeFails renderFails initialState = inr tt.
Proof.
  split; [reflexivity |].
  apply (no_source_no_op decodeFails renderFails initialState). reflexivity.
Defined.

(** ** Download *)

(** C8: with a cropped result stored, [downloadImage] appends, clicks and
    removes a link whose target is the result and whose file name is
    [square-crop.jpg], that is [square-crop.] followed by the extension. *)
Theorem download_fixed_filename (s : AppState) (url : string)
    (Hres : croppedImage s = Some url) (Hne : url <> EmptyString) :
  exists link,
    downloadImage (croppedImage s)
    = [AppendChild link; Click link; RemoveChild link] /\
    href link = url /\
    download link = ("square-crop." ++ "jpg")%string.
Proof.
  rewrite Hres. destruct url as [| ch rest]; [congruence |].
  eexists. split; [reflexivity |]. split; reflexivity.
Qed.

Lemma download_fixed_filename_croppedA :
  croppedImage croppedA = Some cropOfA /\ cropOfA <> EmptyString /\
  exists link,
    downloadImage (croppedImage croppedA)
    = [AppendChild link; Click link; RemoveChild link] /\
    href link = cropOfA /\
    download link = ("square-crop." ++ "jpg")%string.
Proof.
  split; [reflexivity | split; [discriminate |]].
  apply (download_fixed_filename croppedA cropOfA);
    [reflexivity | discriminate].
Defined.

(** ** The event-driven system *)

Lemma exec_reachable (evs : list event) (c c' : Config) :
  reachable c -> exec evs c = Some c' -> reachable c'.
Proof.
  revert c. induction evs as [| e evs IH]; intros c Hc Hexec; simpl in Hexec.
  - injection Hexec as <-. exact Hc.
  - destruct (step e c) as [c1 |] eqn:Hstep; [| discriminate Hexec].
    apply (IH c1); [| exact Hexec].
    exact (reachable_step e c c1 Hc Hstep).
Qed.

Lemma click_starts_decode (st : AppState) :
  truthy (imageSrc st) = true ->
  exists src,
    imageSrc st = Some src /\
    advance (handleAutoCrop (imageSrc st)) st
    = (apply_action (SetIsProcessing true) st, awaiting_decode src).
Proof.
  destruct (imageSrc st) as [[| ch rest] |] eqn:Hsrc; cbn;
    intros H; try discriminate H.
  exists (String ch rest). split; reflexivity.
Qed.

Ltac split_gate :=
  repeat match goal with
         | H : (_ && _)%bool = true |- _ =>
             apply andb_true_iff in H; destruct H
         | H : negb _ = true |- _ => apply negb_true_iff in H
         end.

Lemma step_preserves_invariant (e : event) (c c' : Config) :
  ui_invariant c -> step e c = Some c' -> ui_invariant c'.
Proof.
  destruct c as [st rd tk dm]. unfold ui_invariant. simpl.
  intros Hinv Hstep.
  destruct e as [files | n | | | | n r | n r]; simpl in Hstep.
  - (* FileChange *)
    destruct (fileInputMounted st); [| discriminate Hstep].
    injection Hstep as <-.
    destruct files as [[| f fs] |]; simpl; exact Hinv.
  - (* ReaderLoad *)
    destruct (nth_error rd n) as [result |]; [| discriminate Hstep].
    injection Hstep as <-. simpl.
    destruct tk as [| p [| q tk']]; simpl in *.
    + exact Hinv.
    + destruct Hinv as (Hp & Hflag & _). repeat split; assumption.
    + exact Hinv.
  - (* ClickCrop *)
    destruct (cropButtonEnabled st) eqn:Hgate; [| discriminate Hstep].
    injection Hstep as <-.
    unfold cropButtonEnabled in Hgate. split_gate.
    destruct tk as [| p [| q tk']]; simpl in *.
    + destruct (click_starts_decode st) as (src & _ & Hadv);
        [assumption |].
      unfold startCrop; simpl. rewrite Hadv. simpl.
      split; [exact (in_flight_decode src) |].
      split; [reflexivity | assumption].
    + destruct Hinv as (_ & Hflag & _). congruence.
    + contradiction.
  - (* ClickReset *)
    destruct (resetButtonEnabled st) eqn:Hgate; [| discriminate Hstep].
    injection Hstep as <-. simpl.
    unfold resetButtonEnabled in Hgate.
    apply andb_true_iff in Hgate. destruct Hgate as [_ Hgate].
    destruct tk as [| p [| q tk']]; simpl in *.
    + exact Hinv.
    + destruct Hinv as (_ & Hflag & Hres).
      rewrite Hflag, Hres in Hgate. discriminate Hgate.
    + contradiction.
  - (* ClickDownload *)
    destruct (downloadButtonRendered st); [| discriminate Hstep].
    injection Hstep as <-. simpl. exact Hinv.
  - (* CreateImageSettled *)
    destruct tk as [| p [| q tk']]; simpl in *.
    + destruct n; discriminate Hstep.
    + destruct n as [| m]; [| destruct m; discriminate Hstep].
      simpl in Hstep. destruct Hinv as (Hp & Hflag & Hres).
      destruct Hp as [src | src img]; [| discriminate Hstep].
      simpl in Hstep. injection Hstep as <-.
      unfold continue; simpl.
      destruct r as [err | img]; simpl.
      * reflexivity.
      * split; [exact (in_flight_render src img) | split; assumption].
    + contradiction.
  - (* GetCroppedImgSettled *)
    destruct tk as [| p [| q tk']]; simpl in *.
    + destruct n; discriminate Hstep.
    + destruct n as [| m]; [| destruct m; discriminate Hstep].
      simpl in Hstep. destruct Hinv as (Hp & Hflag & Hres).
      destruct Hp as [src | src img]; [discriminate Hstep |].
      simpl in Hstep. injection Hstep as <-.
      unfold continue; simpl.
      destruct r as [err | res]; simpl; reflexivity.
    + contradiction.
Qed.

(** On every reachable configuration: one crop in flight at most, with
    the flag set exactly while it is. *)
Lemma reachable_invariant (c : Config) : reachable c -> ui_invariant c.
Proof.
  induction 1 as [| e c c' _ IH Hstep].
  - reflexivity.
  - exact (step_preserves_invariant e c c' IH Hstep).
Qed.

Lemma raceRun_reaches : exec raceRun initialConfig = Some raceConfig.
Proof. reflexivity. Qed.

Lemma staleRun_reaches : exec staleRun initialConfig = Some staleConfig.
Proof. reflexivity. Qed.

Lemma raceConfig_reachable : reachable raceConfig.
Proof.
  exact (exec_reachable raceRun initialConfig raceConfig
           reachable_initial raceRun_reaches).
Qed.

Lemma staleConfig_reachable : reachable staleConfig.
Proof.
  exact (exec_reachable staleRun initialConfig staleConfig
           reachable_initial staleRun_reaches).
Qed.

(** No request identity guards the completion.  In the configuration
    reached by [staleRun] the current source is [sourceB], nothing is
    stored, and the render started for [sourceA] is still pending; its
    fulfilment stores the crop of [sourceA]. *)
Lemma stale_completion_overwrites : ~ stale_completion_discarded.
Proof.
  intros Hguard.
  specialize (Hguard staleConfig
    {| state := {| imageSrc := Some sourceB; croppedImage := Some cropOfA;
                   isProcessing := false; error := None |};
       readers := []; tasks := []; dom := [] |}
    0%nat sourceA (pixelCrop portrait) _ cropOfA
    staleConfig_reachable eq_refl).
  simpl in Hguard.
  assert (Hne : Some sourceB <> Some sourceA) by discriminate.
  specialize (Hguard Hne eq_refl). discriminate Hguard.
Qed.

(** The same for every reachable configuration with a read and a render
    pending: the read clears the stored result and the error, the pending
    run is not cancelled, and the late fulfilment of its render stores its
    result beside the new source. *)
Lemma new_source_clears_late_completion_stores
    (c : Config) (n m : nat) (result src res : string) (crop : Area.t)
    (k : settled string -> Async unit)
    (Hreach : reachable c)
    (Hread : nth_error (readers c) n = Some result)
    (Htask : nth_error (tasks c) m = Some (AwaitGetCroppedImg src crop k)) :
  exists c' c'',
    step (ReaderLoad n) c = Some c' /\
    imageSrc (state c') = Some result /\
    croppedImage (state c') = None /\
    error (state c') = None /\
    tasks c' = tasks c /\
    step (GetCroppedImgSettled m (inr res)) c' = Some c'' /\
    imageSrc (state c'') = Some result /\
    croppedImage (state c'') = Some res /\
    isProcessing (state c'') = false /\
    tasks c'' = [].
Proof.
  pose proof (reachable_invariant c Hreach) as Hinv.
  destruct c as [st rd tk dm]. unfold ui_invariant in Hinv. simpl in *.
  destruct tk as [| p [| q tk']]; simpl in *.
  - destruct m; discriminate Htask.
  - destruct m as [| m']; [| destruct m'; discriminate Htask].
    simpl in Htask. injection Htask as ->.
    destruct Hinv as (Hp & Hflag & Hres).
    inversion Hp as [| src' img Hshape]. subst.
    rewrite Hread. do 2 eexists.
    split; [reflexivity |]. simpl.
    repeat split; reflexivity.
  - contradiction.
Qed.

Lemma new_source_clears_late_completion_stores_race :
  reachable raceConfig /\
  nth_error (readers raceConfig) 0 = Some sourceB /\
  exists c' c'',
    step (ReaderLoad 0) raceConfig = Some c' /\
    imageSrc (state c') = Some sourceB /\
    croppedImage (state c') = None /\
    step (GetCroppedImgSettled 0 (inr cropOfA)) c' = Some c'' /\
    imageSrc (state c'') = Some sourceB /\
    croppedImage (state c'') = Some cropOfA /\
    isProcessing (state c'') = false.
Proof.
  split; [exact raceConfig_reachable | split; [reflexivity |]].
  destruct (new_source_clears_late_completion_stores raceConfig 0 0
              sourceB sourceA cropOfA (pixelCrop portrait) _
              raceConfig_reachable eq_refl eq_refl)
    as (c' & c'' & H1 & H2 & H3 & _ & _ & H4 & H5 & H6 & H7 & _).
  exists c', c''. repeat split; assumption.
Defined.

(** C7: the code at the failing input.  Two files are picked before
    either read fires; the first loads and its crop is started; the
    second loads while the render of the first is pending, which makes it
    the current source and clears the result; then the render of the
    first is fulfilled.  The late completion is stored: the page holds
    the second source together with the crop of the first.  A completion
    guarded by request identity would have left the result cleared. *)
Lemma stale_completion_shown_under_new_source :
  exec staleRun initialConfig = Some staleConfig /\
  imageSrc (state staleConfig) = Some sourceB /\
  croppedImage (state staleConfig) = None /\
  tasks staleConfig = [awaiting_render sourceA (pixelCrop portrait)] /\
  exec (staleRun ++ [GetCroppedImgSettled 0 (inr cropOfA)]) initialConfig
  = Some {| state := {| imageSrc := Some sourceB;
                        croppedImage := Some cropOfA;
                        isProcessing := false; error := None |};
            readers := []; tasks := []; dom := [] |}.
Proof. repeat split. Qed.



(** * Further properties of the code *)

(** ** The planned region, continued *)

(** X1: the region is centred: along each axis the margin before the
    region equals the margin after it. *)
Theorem pixelCrop_equal_margins (img : HTMLImageElement) :
  let r := pixelCrop img in
  (Area.x r == inject_Z (Image.width img) - (Area.x r + Area.width r))%Q /\
  (Area.y r == inject_Z (Image.height img) - (Area.y r + Area.height r))%Q.
Proof.
  destruct img as [w h]. cbv zeta.
  unfold pixelCrop, startX, startY.
  cbn [Area.x Area.y Area.width Area.height Image.width Image.height].
  generalize (getMinSideLength (Image.mk w h)). intros side.
  split; unfold Qeq; simpl; lia.
Qed.

(** X2: the region spans the whole of the shorter dimension: one of the
    two offsets is 0 and the region is as wide, or as high, as the
    image. *)
Theorem pixelCrop_spans_shorter_side (img : HTMLImageElement) :
  let r := pixelCrop img in
  ((Area.x r == 0)%Q /\ (Area.width r == inject_Z (Image.width img))%Q) \/
  ((Area.y r == 0)%Q /\ (Area.height r == inject_Z (Image.height img))%Q).
Proof.
  destruct img as [w h]. cbv zeta.
  unfold pixelCrop, startX, startY, getMinSideLength.
  cbn [Area.x Area.y Area.width Area.height Image.width Image.height].
  destruct (Z.le_ge_cases w h) as [Hle | Hge].
  - left. replace (Z.min w h) with w by lia. rewrite Z.sub_diag.
    split; reflexivity.
  - right. replace (Z.min w h) with h by lia. rewrite Z.sub_diag.
    split; reflexivity.
Qed.

(** X3: no larger square fits: a square of side [s] placed at [(a, b)]
    inside the image is not larger than the planned region. *)
Theorem pixelCrop_maximal (img : HTMLImageElement) (a b s : Q)
    (Ha : (0 <= a)%Q) (Hb : (0 <= b)%Q)
    (Hw : (a + s <= inject_Z (Image.width img))%Q)
    (Hh : (b + s <= inject_Z (Image.height img))%Q) :
  (s <= Area.width (pixelCrop img))%Q /\
  (s <= Area.height (pixelCrop img))%Q.
Proof.
  destruct img as [w h]. simpl in *. unfold getMinSideLength. simpl.
  assert (Hsw : (s <= inject_Z w)%Q).
  { apply Qle_trans with (a + s)%Q; [| exact Hw].
    rewrite <- (Qplus_0_l s) at 1. apply Qplus_le_compat;
      [exact Ha | apply Qle_refl]. }
  assert (Hsh : (s <= inject_Z h)%Q).
  { apply Qle_trans with (b + s)%Q; [| exact Hh].
    rewrite <- (Qplus_0_l s) at 1. apply Qplus_le_compat;
      [exact Hb | apply Qle_refl]. }
  assert (Hmin : (s <= inject_Z (Z.min w h))%Q).
  { destruct (Z.le_ge_cases w h) as [Hle | Hge].
    - replace (Z.min w h) with w by lia. exact Hsw.
    - replace (Z.min w h) with h by lia. exact Hsh. }
  split; exact Hmin.
Qed.

Lemma pixelCrop_maximal_portrait :
  (0 <= 0)%Q /\ (0 <= 100)%Q /\
  (0 + 400 <= inject_Z (Image.width portrait))%Q /\
  (100 + 400 <= inject_Z (Image.height portrait))%Q /\
  (400 <= Area.width (pixelCrop portrait))%Q /\
  (400 <= Area.height (pixelCrop portrait))%Q.
Proof.
  assert (Ha : (0 <= 0)%Q) by (unfold Qle; simpl; lia).
  assert (Hb : (0 <= 100)%Q) by (unfold Qle; simpl; lia).
  assert (Hw : (0 + 400 <= inject_Z (Image.width portrait))%Q)
    by (unfold Qle; simpl; lia).
  assert (Hh : (100 + 400 <= inject_Z (Image.height portrait))%Q)
    by (unfold Qle; simpl; lia).
  split; [exact Ha | split; [exact Hb | split; [exact Hw |]]].
  split; [exact Hh |].
  exact (pixelCrop_maximal portrait 0 100 400 Ha Hb Hw Hh).
Defined.

(** X4: turning the image by a quarter turn (width and height exchanged)
    exchanges the two offsets and keeps the side. *)
Theorem pixelCrop_transpose (img : HTMLImageElement) :
  let img' := Image.mk (Image.height img) (Image.width img) in
  (Area.x (pixelCrop img') == Area.y (pixelCrop img))%Q /\
  (Area.y (pixelCrop img') == Area.x (pixelCrop img))%Q /\
  (Area.width (pixelCrop img') == Area.width (pixelCrop img))%Q /\
  (Area.height (pixelCrop img') == Area.height (pixelCrop img))%Q.
Proof.
  destruct img as [w h]. cbv zeta.
  unfold pixelCrop, startX, startY, getMinSideLength.
  cbn [Area.x Area.y Area.width Area.height Image.width Image.height].
  rewrite (Z.min_comm h w).
  repeat split; reflexivity.
Qed.

Lemma half_of_double (k : Z) : (inject_Z (2 * k) / 2 == inject_Z k)%Q.
Proof.
  unfold Qeq, Qdiv, Qmult, Qinv, inject_Z. cbn [Qnum Qden].
  rewrite Pos.mul_1_l. lia.
Qed.

(** X5: when width and height differ by an even number of pixels, both
    offsets are whole numbers of pixels. *)
Theorem pixelCrop_even_difference_integer (img : HTMLImageElement)
    (Heven : Z.even (Image.width img - Image.height img) = true) :
  is_integer (Area.x (pixelCrop img)) /\
  is_integer (Area.y (pixelCrop img)).
Proof.
  destruct img as [w h]. simpl in *.
  apply Z.even_spec in Heven. destruct Heven as [m Hm].
  unfold startX, startY, getMinSideLength. simpl.
  destruct (Z.le_ge_cases w h) as [Hle | Hge].
  - replace (Z.min w h) with w by lia. split.
    + exists 0. rewrite Z.sub_diag. reflexivity.
    + exists (- m). replace (h - w) with (2 * - m) by lia.
      apply half_of_double.
  - replace (Z.min w h) with h by lia. split.
    + exists m. rewrite Hm. apply half_of_double.
    + exists 0. rewrite Z.sub_diag. reflexivity.
Qed.

Lemma pixelCrop_even_difference_integer_portrait :
  Z.even (Image.width portrait - Image.height portrait) = true /\
  is_integer (Area.x (pixelCrop portrait)) /\
  is_integer (Area.y (pixelCrop portrait)).
Proof.
  split; [reflexivity |].
  apply (pixelCrop_even_difference_integer portrait). reflexivity.
Defined.

(** X6: cropping a cropped image changes nothing: for an image with the
    dimensions of the planned region of [img], the planned region is the
    whole of it. *)
Theorem pixelCrop_idempotent (img : HTMLImageElement) :
  let side := getMinSideLength img in
  Area.eq (pixelCrop (Image.mk side side))
    {| Area.x := 0; Area.y := 0;
       Area.width := Area.width (pixelCrop img);
       Area.height := Area.height (pixelCrop img) |}.
Proof.
  destruct img as [w h]. cbv zeta.
  unfold Area.eq, pixelCrop, startX, startY, getMinSideLength.
  cbn [Area.x Area.y Area.width Area.height Image.width Image.height].
  rewrite Z.min_id, Z.sub_diag.
  repeat split; reflexivity.
Qed.

(** ** One run of [handleAutoCrop], continued *)

(** X7: when decode and render both succeed, the run calls decode, then
    render on the planned region, stores the result and resets the flag;
    it does not touch the error message: one left by an earlier failed
    run stays. *)
Theorem successful_run_stores_result
    (createImage : string -> settled HTMLImageElement)
    (getCroppedImg : string -> Area.t -> settled string)
    (s : AppState) (src res : string) (img : HTMLImageElement)
    (Hsrc : imageSrc s = Some src) (Hne : src <> EmptyString)
    (Hdec : createImage src = inr img)
    (Hren : getCroppedImg src (pixelCrop img) = inr res) :
  cropTrace createImage getCroppedImg s
  = [SetIsProcessing true; CreateImage src;
     GetCroppedImg src (pixelCrop img);
     SetCroppedImage (Some res); SetIsProcessing false] /\
  croppedImage (cropFinal createImage getCroppedImg s) = Some res /\
  error (cropFinal createImage getCroppedImg s) = error s /\
  imageSrc (cropFinal createImage getCroppedImg s) = Some src /\
  isProcessing (cropFinal createImage getCroppedImg s) = false.
Proof.
  unfold cropTrace, cropFinal.
  rewrite (run_handleAutoCrop createImage getCroppedImg s src Hsrc Hne).
  rewrite Hdec, Hren. cbn. repeat split. exact Hsrc.
Qed.

Lemma successful_run_stores_result_keeps_error :
  let s := {| imageSrc := Some sourceA; croppedImage := None;
              isProcessing := false; error := Some processingFailed |} in
  imageSrc s = Some sourceA /\ sourceA <> EmptyString /\
  croppedImage (cropFinal (decodeOk portrait) (renderOk cropOfA) s)
  = Some cropOfA /\
  error (cropFinal (decodeOk portrait) (renderOk cropOfA) s)
  = Some processingFailed.
Proof.
  cbv zeta.
  split; [reflexivity | split; [discriminate |]].
  destruct (successful_run_stores_result
              (decodeOk portrait) (renderOk cropOfA)
              {| imageSrc := Some sourceA; croppedImage := None;
                 isProcessing := false; error := Some processingFailed |}
              sourceA cropOfA portrait eq_refl)
    as (_ & Hres & Herr & _); [discriminate | reflexivity | reflexivity |].
  split; [exact Hres | exact Herr].
Defined.

(** X8: whatever the state and whatever decode and render do, the
    handler never changes the image source and never lets an exception
    out: the promise it returns is always fulfilled. *)
Theorem handleAutoCrop_keeps_source_never_rejects
    (createImage : string -> settled HTMLImageElement)
    (getCroppedImg : string -> Area.t -> settled string)
    (s : AppState) :
  imageSrc (cropFinal createImage getCroppedImg s) = imageSrc s /\
  (forall v, ~ In (SetImageSrc v) (cropTrace createImage getCroppedImg s)) /\
  cropCompletion createImage getCroppedImg s = inr tt.
Proof.
  unfold cropTrace, cropFinal, cropCompletion.
  destruct (truthy (imageSrc s)) eqn:Ht.
  - destruct (imageSrc s) as [src |] eqn:Hsrc; [| discriminate Ht].
    assert (Hne : src <> EmptyString) by (intro; subst; discriminate Ht).
    rewrite (run_handleAutoCrop createImage getCroppedImg s src Hsrc Hne).
    destruct (createImage src) as [e | img].
    + cbn. repeat split; auto.
      intros v [H | [H | [H | [H | [H | []]]]]]; discriminate H.
    + destruct (getCroppedImg src (pixelCrop img)) as [e | res]; cbn.
      * repeat split; auto.
        intros v [H | [H | [H | [H | [H | [H | []]]]]]]; discriminate H.
      * repeat split; auto.
        intros v [H | [H | [H | [H | [H | []]]]]]; discriminate H.
  - rewrite (run_handleAutoCrop_falsy createImage getCroppedImg s Ht).
    cbn. repeat split. intros v [].
Qed.

(** ** The event-driven system, continued *)

(** What each event does on a page that satisfies the invariant. *)
Lemma step_cases (e : event) (c c' : Config) :
  ui_invariant c -> step e c = Some c' ->
  match e with
  | FileChange files =>
      fileInputMounted (state c) = true /\ c' = onFileChange files c
  | ReaderLoad n =>
      exists result,
        nth_error (readers c) n = Some result /\
        c' = {| state := apply_actions (onload result) (state c);
                readers := remove_nth n (readers c);
                tasks := tasks c; dom := dom c |}
  | ClickCrop =>
      cropButtonEnabled (state c) = true /\ tasks c = [] /\
      exists src,
        imageSrc (state c) = Some src /\
        c' = {| state := apply_action (SetIsProcessing true) (state c);
                readers := readers c;
                tasks := [awaiting_decode src]; dom := dom c |}
  | ClickReset =>
      resetButtonEnabled (state c) = true /\ tasks c = [] /\
      c' = {| state := apply_actions reset (state c);
              readers := readers c; tasks := []; dom := dom c |}
  | ClickDownload =>
      downloadButtonRendered (state c) = true /\
      c' = {| state := state c; readers := readers c; tasks := tasks c;
              dom := dom c ++ downloadImage (croppedImage (state c)) |}
  | CreateImageSettled n r =>
      n = 0%nat /\
      exists src,
        tasks c = [awaiting_decode src] /\
        c' = match r with
             | inl _ =>
                 {| state := afterCrop (state c) (croppedImage (state c))
                               (Some processingFailed);
                    readers := readers c; tasks := []; dom := dom c |}
             | inr img =>
                 {| state := state c; readers := readers c;
                    tasks := [awaiting_render src (pixelCrop img)];
                    dom := dom c |}
             end
  | GetCroppedImgSettled n r =>
      n = 0%nat /\
      exists src img,
        tasks c = [awaiting_render src (pixelCrop img)] /\
        c' = {| state :=
                  match r with
                  | inl _ => afterCrop (state c) (croppedImage (state c))
                               (Some processingFailed)
                  | inr res => afterCrop (state c) (Some res)
                                 (error (state c))
                  end;
                readers := readers c; tasks := []; dom := dom c |}
  end.
Proof.
  destruct c as [st rd tk dm]. unfold ui_invariant. simpl.
  intros Hinv Hstep.
  destruct e as [files | n | | | | n r | n r]; simpl in Hstep.
  - destruct (fileInputMounted st); [| discriminate Hstep].
    injection Hstep as <-. split; reflexivity.
  - destruct (nth_error rd n) as [result |]; [| discriminate Hstep].
    injection Hstep as <-. exists result. split; reflexivity.
  - destruct (cropButtonEnabled st) eqn:Hgate; [| discriminate Hstep].
    injection Hstep as <-. split; [reflexivity |].
    unfold cropButtonEnabled in Hgate. split_gate.
    destruct tk as [| p [| q tk']]; simpl in *.
    + split; [reflexivity |].
      destruct (click_starts_decode st) as (src & Hsrc & Hadv);
        [assumption |].
      exists src. split; [exact Hsrc |].
      unfold startCrop; simpl. rewrite Hadv. reflexivity.
    + destruct Hinv as (_ & Hflag & _). congruence.
    + contradiction.
  - destruct (resetButtonEnabled st) eqn:Hgate; [| discriminate Hstep].
    injection Hstep as <-. split; [reflexivity |].
    unfold resetButtonEnabled in Hgate.
    apply andb_true_iff in Hgate. destruct Hgate as [_ Hgate].
    destruct tk as [| p [| q tk']]; simpl in *.
    + split; reflexivity.
    + destruct Hinv as (_ & Hflag & Hres).
      rewrite Hflag, Hres in Hgate. discriminate Hgate.
    + contradiction.
  - destruct (downloadButtonRendered st); [| discriminate Hstep].
    injection Hstep as <-. split; reflexivity.
  - destruct tk as [| p [| q tk']]; simpl in *.
    + destruct n; discriminate Hstep.
    + destruct n as [| m]; [| destruct m; discriminate Hstep].
      split; [reflexivity |].
      simpl in Hstep. destruct Hinv as (Hp & _).
      destruct Hp as [src | src img]; [| discriminate Hstep].
      simpl in Hstep. injection Hstep as <-.
      exists src. split; [reflexivity |].
      destruct r as [err | img]; reflexivity.
    + contradiction.
  - destruct tk as [| p [| q tk']]; simpl in *.
    + destruct n; discriminate Hstep.
    + destruct n as [| m]; [| destruct m; discriminate Hstep].
      split; [reflexivity |].
      simpl in Hstep. destruct Hinv as (Hp & _).
      destruct Hp as [src | src img]; [discriminate Hstep |].
      simpl in Hstep. injection Hstep as <-.
      exists src, img. split; [reflexivity |].
      destruct r as [err | res]; reflexivity.
    + contradiction.
Qed.

Lemma pendingConfig_reachable : reachable pendingConfig.
Proof.
  apply (exec_reachable pendingRun initialConfig pendingConfig
           reachable_initial).
  reflexivity.
Qed.

(** X9: on every configuration the page can reach, at most one crop is
    in flight; the processing flag is set exactly while one is; and
    while one is, no cropped result is stored. *)
Theorem single_crop_in_flight (c : Config) (Hreach : reachable c) :
  (List.length (tasks c) <= 1)%nat /\
  (isProcessing (state c) = true <-> tasks c <> []) /\
  (tasks c <> [] -> truthy (croppedImage (state c)) = false) /\
  Forall in_flight (tasks c).
Proof.
  pose proof (reachable_invariant c Hreach) as Hinv.
  unfold ui_invariant in Hinv.
  destruct (tasks c) as [| p [| q tk']]; simpl.
  - split; [lia |]. split; [| split; [congruence | constructor]].
    rewrite Hinv. split; [discriminate | congruence].
  - destruct Hinv as (Hp & Hflag & Hres).
    split; [lia |]. split; [| split; [intros _; exact Hres |]].
    + rewrite Hflag. split; [discriminate | reflexivity].
    + constructor; [exact Hp | constructor].
  - contradiction.
Qed.

Lemma single_crop_in_flight_race :
  reachable raceConfig /\
  (List.length (tasks raceConfig) <= 1)%nat /\
  (isProcessing (state raceConfig) = true <-> tasks raceConfig <> []) /\
  (tasks raceConfig <> [] ->
   truthy (croppedImage (state raceConfig)) = false) /\
  Forall in_flight (tasks raceConfig).
Proof.
  split; [exact raceConfig_reachable |].
  exact (single_crop_in_flight raceConfig raceConfig_reachable).
Defined.

(** X10: while a crop is in flight the page serves no click on the crop
    button, on reset or cancel, or on download. *)
Theorem controls_blocked_in_flight (c : Config)
    (Hreach : reachable c) (Hflight : tasks c <> []) :
  step ClickCrop c = None /\
  step ClickReset c = None /\
  step ClickDownload c = None.
Proof.
  pose proof (reachable_invariant c Hreach) as Hinv.
  unfold ui_invariant in Hinv.
  destruct (tasks c) as [| p [| q tk']]; [congruence | | contradiction].
  destruct Hinv as (_ & Hflag & Hres).
  unfold step, cropButtonEnabled, resetButtonEnabled,
    downloadButtonRendered.
  rewrite Hflag, Hres. simpl.
  rewrite !andb_false_r. repeat split.
Qed.

Lemma controls_blocked_in_flight_race :
  reachable raceConfig /\ tasks raceConfig <> [] /\
  step ClickCrop raceConfig = None /\
  step ClickReset raceConfig = None /\
  step ClickDownload raceConfig = None.
Proof.
  assert (Hflight : tasks raceConfig <> []) by discriminate.
  split; [exact raceConfig_reachable | split; [exact Hflight |]].
  exact (controls_blocked_in_flight raceConfig raceConfig_reachable Hflight).
Defined.

(** X11: whenever the page serves a reset, the component is back in its
    initial state, processing flag included; file reads that are still
    pending are not cancelled. *)
Theorem reset_restores_initial_state (c c' : Config)
    (Hreach : reachable c) (Hstep : step ClickReset c = Some c') :
  state c' = initialState /\
  readers c' = readers c /\
  tasks c' = [] /\
  dom c' = dom c.
Proof.
  pose proof (reachable_invariant c Hreach) as Hinv.
  destruct (step_cases ClickReset c c' Hinv Hstep) as (_ & Htk & ->).
  simpl. repeat split.
  unfold ui_invariant in Hinv. rewrite Htk in Hinv.
  unfold apply_actions, initialState; simpl. rewrite Hinv. reflexivity.
Qed.

Lemma reset_restores_initial_state_pending :
  reachable pendingConfig /\
  exists c',
    step ClickReset pendingConfig = Some c' /\
    state c' = initialState /\ readers c' = [sourceB].
Proof.
  split; [exact pendingConfig_reachable |].
  eexists. split; [reflexivity |].
  destruct (reset_restores_initial_state pendingConfig _
              pendingConfig_reachable eq_refl) as (Hst & Hrd & _).
  split; [exact Hst | exact Hrd].
Defined.

(** X12: the error cell holds nothing or the processing-failed message,
    and an event changes it in just these ways: a rejected decode or
    render sets the message, a loaded file or a reset clears it, and
    every other event leaves it as it is. *)
Theorem error_set_by_failure_cleared_by_source (e : event) (c c' : Config)
    (Hreach : reachable c) (Hstep : step e c = Some c') :
  (error (state c) = None \/ error (state c) = Some processingFailed) /\
  (error (state c') = None \/ error (state c') = Some processingFailed) /\
  error (state c') =
  match e with
  | ReaderLoad _ | ClickReset => None
  | CreateImageSettled _ (inl _) | GetCroppedImgSettled _ (inl _) =>
      Some processingFailed
  | _ => error (state c)
  end.
Proof.
  assert (Hbound : forall c0, reachable c0 ->
            error (state c0) = None \/
            error (state c0) = Some processingFailed).
  { intros c0 H0. induction H0 as [| e0 c0 c1 H0 IH Hs].
    - left. reflexivity.
    - pose proof (step_cases e0 c0 c1 (reachable_invariant c0 H0) Hs)
        as Hcase.
      destruct e0 as [files | n | | | | n r | n r].
      + destruct Hcase as (_ & ->).
        destruct files as [[| f fs] |]; exact IH.
      + destruct Hcase as (result & _ & ->). left. reflexivity.
      + destruct Hcase as (_ & _ & src & _ & ->). exact IH.
      + destruct Hcase as (_ & _ & ->). left. reflexivity.
      + destruct Hcase as (_ & ->). exact IH.
      + destruct Hcase as (_ & src & _ & ->).
        destruct r as [err | img]; [right; reflexivity | exact IH].
      + destruct Hcase as (_ & src & img & _ & ->).
        destruct r as [err | res]; [right; reflexivity | exact IH]. }
  split; [exact (Hbound c Hreach) |].
  split; [exact (Hbound c' (reachable_step e c c' Hreach Hstep)) |].
  pose proof (step_cases e c c' (reachable_invariant c Hreach) Hstep)
    as Hcase.
  destruct e as [files | n | | | | n r | n r].
  - destruct Hcase as (_ & ->).
    destruct files as [[| f fs] |]; reflexivity.
  - destruct Hcase as (result & _ & ->). reflexivity.
  - destruct Hcase as (_ & _ & src & _ & ->). reflexivity.
  - destruct Hcase as (_ & _ & ->). reflexivity.
  - destruct Hcase as (_ & ->). reflexivity.
  - destruct Hcase as (_ & src & _ & ->).
    destruct r as [err | img]; reflexivity.
  - destruct Hcase as (_ & src & img & _ & ->).
    destruct r as [err | res]; reflexivity.
Qed.

Lemma error_set_by_failure_cleared_by_source_race :
  let failed :=
    {| state := {| imageSrc := Some sourceA; croppedImage := None;
                   isProcessing := false;
                   error := Some processingFailed |};
       readers := [sourceB]; tasks := []; dom := [] |} in
  reachable raceConfig /\
  step (GetCroppedImgSettled 0 (inl "render error"%string)) raceConfig
  = Some failed /\
  error (state raceConfig) = None /\
  error (state failed) = Some processingFailed /\
  exists c'',
    step (ReaderLoad 0) failed = Some c'' /\
    error (state c'') = None.
Proof.
  intros failed.
  assert (Hfail : step (GetCroppedImgSettled 0 (inl "render error"%string))
                    raceConfig = Some failed) by reflexivity.
  split; [exact raceConfig_reachable |].
  split; [exact Hfail |].
  destruct (error_set_by_failure_cleared_by_source
              (GetCroppedImgSettled 0 (inl "render error"%string))
              raceConfig failed raceConfig_reachable Hfail)
    as (_ & _ & Hset).
  split; [reflexivity |]. split; [exact Hset |].
  eexists. split; [reflexivity |].
  assert (Hreach : reachable failed)
    by exact (reachable_step _ _ _ raceConfig_reachable Hfail).
  destruct (error_set_by_failure_cleared_by_source (ReaderLoad 0)
              failed _ Hreach eq_refl)
    as (_ & _ & Hclear).
  exact Hclear.
Defined.

(** X13: after a failed decode or render the crop can be tried again
    without a new upload: the message is set, nothing is in flight, and
    with the source still loaded the crop button is enabled. *)
Theorem retry_after_failure (c c' : Config) (ev : event) (n : nat)
    (e : exn)
    (Hreach : reachable c)
    (Hev : ev = CreateImageSettled n (inl e) \/
           ev = GetCroppedImgSettled n (inl e))
    (Hstep : step ev c = Some c')
    (Hsrc : truthy (imageSrc (state c)) = true) :
  error (state c') = Some processingFailed /\
  tasks c' = [] /\
  cropButtonEnabled (state c') = true /\
  imageSrc (state c') = imageSrc (state c).
Proof.
  pose proof (reachable_invariant c Hreach) as Hinv.
  pose proof (step_cases ev c c' Hinv Hstep) as Hcase.
  assert (Hres : truthy (croppedImage (state c)) = false).
  { unfold ui_invariant in Hinv.
    destruct Hev as [-> | ->].
    - destruct Hcase as (_ & src & Htk & _). rewrite Htk in Hinv.
      apply Hinv.
    - destruct Hcase as (_ & src & img & Htk & _). rewrite Htk in Hinv.
      apply Hinv. }
  assert (Hst : state c' = afterCrop (state c) (croppedImage (state c))
                             (Some processingFailed) /\ tasks c' = []).
  { destruct Hev as [-> | ->].
    - destruct Hcase as (_ & src & _ & ->). split; reflexivity.
    - destruct Hcase as (_ & src & img & _ & ->). split; reflexivity. }
  destruct Hst as [Hst Htk]. rewrite Hst. simpl.
  repeat split; try assumption.
  unfold cropButtonEnabled. simpl. rewrite Hsrc, Hres. reflexivity.
Qed.

Lemma retry_after_failure_race :
  reachable raceConfig /\
  truthy (imageSrc (state raceConfig)) = true /\
  exists c',
    step (GetCroppedImgSettled 0 (inl "render error"%string)) raceConfig
    = Some c' /\
    error (state c') = Some processingFailed /\
    cropButtonEnabled (state c') = true.
Proof.
  split; [exact raceConfig_reachable | split; [reflexivity |]].
  eexists. split; [reflexivity |].
  destruct (retry_after_failure raceConfig _
              (GetCroppedImgSettled 0 (inl "render error"%string))
              0 "render error"%string raceConfig_reachable
              (or_intror eq_refl) eq_refl eq_refl)
    as (Herr & _ & Hbtn & _).
  split; [exact Herr | exact Hbtn].
Defined.

(** X14: when the render is fulfilled with a non-empty result while a
    source is loaded, the crop button gives way to the download button,
    and a click on it downloads exactly that result as
    [square-crop.jpg], leaving the component state as it is. *)
Theorem success_then_download (c c' : Config) (n : nat) (res : string)
    (Hreach : reachable c)
    (Hstep : step (GetCroppedImgSettled n (inr res)) c = Some c')
    (Hres : res <> EmptyString)
    (Hsrc : truthy (imageSrc (state c)) = true) :
  downloadButtonRendered (state c') = true /\
  cropButtonEnabled (state c') = false /\
  exists c'' link,
    step ClickDownload c' = Some c'' /\
    href link = res /\ download link = "square-crop.jpg"%string /\
    dom c'' = dom c' ++ [AppendChild link; Click link; RemoveChild link] /\
    state c'' = state c'.
Proof.
  pose proof (reachable_invariant c Hreach) as Hinv.
  destruct (step_cases _ c c' Hinv Hstep) as (_ & src & img & _ & ->).
  destruct res as [| ch rest]; [congruence |].
  assert (Hdl : downloadButtonRendered
                 (afterCrop (state c) (Some (String ch rest))
                    (error (state c))) = true).
  { unfold downloadButtonRendered. simpl. rewrite Hsrc. reflexivity. }
  split; [exact Hdl |].
  split.
  { unfold cropButtonEnabled. simpl. rewrite Hsrc. reflexivity. }
  unfold step. cbn [state]. rewrite Hdl.
  eexists.
  exists {| href := String ch rest; download := "square-crop.jpg" |}.
  split; [reflexivity |]. repeat split.
Qed.

Lemma success_then_download_race :
  reachable raceConfig /\ cropOfA <> EmptyString /\
  truthy (imageSrc (state raceConfig)) = true /\
  exists c' c'' link,
    step (GetCroppedImgSettled 0 (inr cropOfA)) raceConfig = Some c' /\
    step ClickDownload c' = Some c'' /\
    href link = cropOfA /\ download link = "square-crop.jpg"%string /\
    dom c'' = dom c' ++ [AppendChild link; Click link; RemoveChild link].
Proof.
  assert (Hne : cropOfA <> EmptyString) by discriminate.
  split; [exact raceConfig_reachable |].
  split; [exact Hne | split; [reflexivity |]].
  eexists.
  destruct (success_then_download raceConfig _ 0 cropOfA
              raceConfig_reachable eq_refl Hne eq_refl)
    as (_ & _ & c'' & link & Hdl & Hhref & Hname & Hdom & _).
  exists c'', link.
  split; [reflexivity |]. repeat split; assumption.
Defined.

(** X15: everything the page ever does to the document is a sequence of
    downloads: each link is appended, clicked and removed again, is
    named [square-crop.jpg] and has a non-empty target. *)
Theorem dom_is_download_log (c : Config) (Hreach : reachable c) :
  download_log (dom c).
Proof.
  induction Hreach as [| e c c' Hreach IH Hstep].
  - constructor.
  - pose proof (reachable_invariant c Hreach) as Hinv.
    pose proof (step_cases e c c' Hinv Hstep) as Hcase.
    destruct e as [files | n | | | | n r | n r].
    + destruct Hcase as (_ & ->).
      destruct files as [[| f fs] |]; exact IH.
    + destruct Hcase as (result & _ & ->). exact IH.
    + destruct Hcase as (_ & _ & src & _ & ->). exact IH.
    + destruct Hcase as (_ & _ & ->). exact IH.
    + destruct Hcase as (Hgate & ->). simpl.
      unfold downloadButtonRendered in Hgate.
      apply andb_true_iff in Hgate. destruct Hgate as [_ Hres].
      destruct (croppedImage (state c)) as [[| ch rest] |];
        try discriminate Hres.
      simpl. apply download_log_snoc;
        [exact IH | reflexivity | discriminate].
    + destruct Hcase as (_ & src & _ & ->).
      destruct r as [err | img]; exact IH.
    + destruct Hcase as (_ & src & img & _ & ->). exact IH.
Qed.

Lemma dom_is_download_log_race :
  reachable raceConfig /\ download_log (dom raceConfig).
Proof.
  split; [exact raceConfig_reachable |].
  exact (dom_is_download_log raceConfig raceConfig_reachable).
Defined.

(** X16: a click on the crop button served with no other event in
    between, decode and render settling as the collaborators say, leaves
    the component in the state of the uninterrupted run of the handler,
    with nothing in flight. *)
Theorem uninterrupted_click_is_run
    (createImage : string -> settled HTMLImageElement)
    (getCroppedImg : string -> Area.t -> settled string)
    (c : Config) (src : string)
    (Hidle : tasks c = [])
    (Hsrc : imageSrc (state c) = Some src)
    (Hgate : cropButtonEnabled (state c) = true) :
  exists c',
    exec (uninterrupted createImage getCroppedImg src) c = Some c' /\
    state c' = cropFinal createImage getCroppedImg (state c) /\
    tasks c' = [] /\ readers c' = readers c /\ dom c' = dom c.
Proof.
  destruct c as [st rd tk dm]. simpl in *. subst tk.
  assert (Hne : src <> EmptyString).
  { intros ->. unfold cropButtonEnabled in Hgate. rewrite Hsrc in Hgate.
    discriminate Hgate. }
  unfold cropFinal.
  rewrite (run_handleAutoCrop createImage getCroppedImg st src Hsrc Hne).
  unfold uninterrupted.
  destruct src as [| ch rest]; [congruence |].
  cbn [exec step state]. rewrite Hgate.
  unfold startCrop. cbn [state]. rewrite Hsrc.
  destruct (createImage (String ch rest)) as [err | img].
  - eexists. split; [reflexivity |]. repeat split.
  - destruct (getCroppedImg (String ch rest) (pixelCrop img))
      as [err | res].
    + eexists. split; [reflexivity |]. repeat split.
    + eexists. split; [reflexivity |]. repeat split.
Qed.

Lemma uninterrupted_click_is_run_pending :
  tasks pendingConfig = [] /\
  imageSrc (state pendingConfig) = Some sourceA /\
  cropButtonEnabled (state pendingConfig) = true /\
  exists c',
    exec (uninterrupted (decodeOk portrait) renderFails sourceA)
         pendingConfig = Some c' /\
    state c' = cropFinal (decodeOk portrait) renderFails
                 (state pendingConfig).
Proof.
  repeat (split; [reflexivity |]).
  destruct (uninterrupted_click_is_run (decodeOk portrait) renderFails
              pendingConfig sourceA eq_refl eq_refl eq_refl)
    as (c' & Hexec & Hst & _).
  exists c'. split; [exact Hexec | exact Hst].
Defined.

(** X17: a reset does not cancel a file read that is still pending: when
    that read fires after the reset, its file becomes the source. *)
Theorem reset_then_late_load (c : Config) (n : nat) (result : string)
    (Hgate : resetButtonEnabled (state c) = true)
    (Hread : nth_error (readers c) n = Some result) :
  exists c' c'',
    step ClickReset c = Some c' /\
    imageSrc (state c') = None /\
    step (ReaderLoad n) c' = Some c'' /\
    imageSrc (state c'') = Some result /\
    croppedImage (state c'') = None /\
    error (state c'') = None.
Proof.
  unfold step. rewrite Hgate. do 2 eexists.
  split; [reflexivity |]. split; [reflexivity |].
  cbn [readers]. rewrite Hread.
  split; [reflexivity |]. repeat split.
Qed.

Lemma reset_then_late_load_pending :
  resetButtonEnabled (state pendingConfig) = true /\
  nth_error (readers pendingConfig) 0 = Some sourceB /\
  exists c' c'',
    step ClickReset pendingConfig = Some c' /\
    imageSrc (state c') = None /\
    step (ReaderLoad 0) c' = Some c'' /\
    imageSrc (state c'') = Some sourceB /\
    croppedImage (state c'') = None /\
    error (state c'') = None.
Proof.
  split; [reflexivity | split; [reflexivity |]].
  exact (reset_then_late_load pendingConfig 0 sourceB eq_refl eq_refl).
Defined.

(** X18: a crop in flight cannot leave the page stuck in processing:
    once the promises it waits for settle, at most two settlements,
    whatever their outcome, end it with the flag reset. *)
Theorem in_flight_run_ends (c : Config)
    (dec : settled HTMLImageElement) (ren : settled string)
    (Hreach : reachable c) (Hflight : tasks c <> []) :
  exists evs c',
    (evs = [CreateImageSettled 0 dec]
     \/ evs = [CreateImageSettled 0 dec; GetCroppedImgSettled 0 ren]
     \/ evs = [GetCroppedImgSettled 0 ren]) /\
    exec evs c = Some c' /\
    tasks c' = [] /\
    isProcessing (state c') = false /\
    imageSrc (state c') = imageSrc (state c).
Proof.
  pose proof (reachable_invariant c Hreach) as Hinv.
  destruct c as [st rd tk dm]. unfold ui_invariant in Hinv. simpl in *.
  destruct tk as [| p [| q tk']]; [congruence | | contradiction].
  destruct Hinv as (Hp & _).
  destruct Hp as [src | src img].
  - destruct dec as [err | img].
    + exists [CreateImageSettled 0 (inl err)]. eexists.
      split; [left; reflexivity |].
      split; [reflexivity |]. repeat split.
    + destruct ren as [err | res].
      * exists [CreateImageSettled 0 (inr img);
                GetCroppedImgSettled 0 (inl err)]. eexists.
        split; [right; left; reflexivity |].
        split; [reflexivity |]. repeat split.
      * exists [CreateImageSettled 0 (inr img);
                GetCroppedImgSettled 0 (inr res)]. eexists.
        split; [right; left; reflexivity |].
        split; [reflexivity |]. repeat split.
  - destruct ren as [err | res].
    + exists [GetCroppedImgSettled 0 (inl err)]. eexists.
      split; [right; right; reflexivity |].
      split; [reflexivity |]. repeat split.
    + exists [GetCroppedImgSettled 0 (inr res)]. eexists.
      split; [right; right; reflexivity |].
      split; [reflexivity |]. repeat split.
Qed.

Lemma in_flight_run_ends_race :
  reachable raceConfig /\ tasks raceConfig <> [] /\
  exists evs c',
    (evs = [CreateImageSettled 0 (inr portrait)]
     \/ evs = [CreateImageSettled 0 (inr portrait);
               GetCroppedImgSettled 0 (inr cropOfA)]
     \/ evs = [GetCroppedImgSettled 0 (inr cropOfA)]) /\
    exec evs raceConfig = Some c' /\
    tasks c' = [] /\
    isProcessing (state c') = false /\
    imageSrc (state c') = imageSrc (state raceConfig).
Proof.
  assert (Hflight : tasks raceConfig <> []) by discriminate.
  split; [exact raceConfig_reachable | split; [exact Hflight |]].
  exact (in_flight_run_ends raceConfig (inr portrait) (inr cropOfA)
           raceConfig_reachable Hflight).
Defined.

(** ** [Button] *)

Lemma append_cancel_l (p a b : string) :
  (p ++ a)%string = (p ++ b)%string -> a = b.
Proof.
  induction p as [| ch p IH]; simpl; intros H.
  - exact H.
  - injection H as H. exact (IH H).
Qed.

Lemma variants_separate (v1 v2 : Button.variant) (t1 t2 : string) :
  (Button.variants v1 ++ " " ++ t1)%string
  = (Button.variants v2 ++ " " ++ t2)%string ->
  v1 = v2.
Proof.
  destruct v1, v2; cbn; intros H; try reflexivity; congruence.
Qed.

Lemma sizes_separate (s1 s2 : Button.size) (t1 t2 : string) :
  (Button.sizes s1 ++ " " ++ t1)%string
  = (Button.sizes s2 ++ " " ++ t2)%string ->
  s1 = s2.
Proof.
  destruct s1, s2; cbn; intros H; try reflexivity; congruence.
Qed.

(** X19: the class string of a [Button] tells its variant and its size:
    two buttons with the same class string have the same variant and
    the same size (defaults [primary] and [md] applied), whatever extra
    classes the callers pass. *)
Theorem Button_className_separates
    (v1 v2 : option Button.variant) (s1 s2 : option Button.size)
    (c1 c2 : option string)
    (Heq : Button.className v1 s1 c1 = Button.className v2 s2 c2) :
  Button.withDefault Button.primary v1
  = Button.withDefault Button.primary v2 /\
  Button.withDefault Button.md s1 = Button.withDefault Button.md s2 /\
  Button.withDefault EmptyString c1 = Button.withDefault EmptyString c2.
Proof.
  unfold Button.className in Heq. cbv zeta in Heq.
  apply append_cancel_l in Heq.
  apply (append_cancel_l " ") in Heq.
  pose proof (variants_separate _ _ _ _ Heq) as Hv.
  rewrite Hv in Heq.
  apply append_cancel_l in Heq.
  apply (append_cancel_l " ") in Heq.
  pose proof (sizes_separate _ _ _ _ Heq) as Hs.
  rewrite Hs in Heq.
  apply append_cancel_l in Heq.
  apply (append_cancel_l " ") in Heq.
  split; [exact Hv | split; [exact Hs | exact Heq]].
Qed.

Lemma Button_className_separates_default :
  Button.className None None None
  = Button.className (Some Button.primary) (Some Button.md)
      (Some EmptyString) /\
  Button.withDefault Button.primary None
  = Button.withDefault Button.primary (Some Button.primary) /\
  Button.withDefault Button.md None
  = Button.withDefault Button.md (Some Button.md) /\
  Button.withDefault EmptyString None
  = Button.withDefault EmptyString (Some EmptyString).
Proof.
  split; [reflexivity |].
  apply (Button_className_separates None (Some Button.primary)
           None (Some Button.md) None (Some EmptyString)).
  reflexivity.
Defined.

(** ** The processing flag over the runs of the page *)

(** While a crop is in flight a source is loaded. *)
Lemma in_flight_has_source (c : Config) :
  reachable c -> imageSrc (state c) = None -> tasks c = [].
Proof.
  induction 1 as [| e c c' Hreach IH Hstep]; intros Hnone.
  - reflexivity.
  - pose proof (step_cases e c c' (reachable_invariant c Hreach) Hstep)
      as Hcase.
    destruct e as [files | n | | | | n r | n r].
    + destruct Hcase as (_ & ->).
      destruct files as [[| f fs] |]; simpl in *; exact (IH Hnone).
    + destruct Hcase as (result & _ & ->). discriminate Hnone.
    + destruct Hcase as (_ & _ & src & Hsrc & ->). simpl in Hnone.
      congruence.
    + destruct Hcase as (_ & _ & ->). reflexivity.
    + destruct Hcase as (_ & ->). simpl in *. exact (IH Hnone).
    + destruct Hcase as (_ & src & Htk & ->).
      destruct r as [err | img]; [reflexivity |].
      simpl in Hnone. rewrite (IH Hnone) in Htk. discriminate Htk.
    + destruct Hcase as (_ & src & img & _ & ->). reflexivity.
Qed.

(** C9: every run of the crop operation ends with the processing flag
    false.  On every configuration the page can reach: a click on the
    crop button sets the flag, and the run it starts, whether decode and
    render succeed or either fails, sets the flag first, resets it last
    and lets no exception out; with no source loaded the handler returns
    at the guard and the flag is false as well; and with other events in
    between, whenever no run is in flight any more the flag is false. *)
Theorem crop_run_ends_with_flag_false
    (createImage : string -> settled HTMLImageElement)
    (getCroppedImg : string -> Area.t -> settled string)
    (c : Config) (Hreach : reachable c) :
  (forall c1, step ClickCrop c = Some c1 ->
     isProcessing (state c1) = true /\
     (exists mid,
         cropTrace createImage getCroppedImg (state c)
         = SetIsProcessing true :: mid ++ [SetIsProcessing false]) /\
     isProcessing (cropFinal createImage getCroppedImg (state c)) = false /\
     cropCompletion createImage getCroppedImg (state c) = inr tt) /\
  (imageSrc (state c) = None ->
     isProcessing (cropFinal createImage getCroppedImg (state c)) = false) /\
  (forall evs c2, exec evs c = Some c2 -> tasks c2 = [] ->
     isProcessing (state c2) = false).
Proof.
  pose proof (reachable_invariant c Hreach) as Hinv.
  split; [| split].
  - intros c1 Hstep.
    destruct (step_cases ClickCrop c c1 Hinv Hstep)
      as (Hgate & _ & src & Hsrc & ->).
    assert (Hne : src <> EmptyString).
    { intros ->. unfold cropButtonEnabled in Hgate.
      rewrite Hsrc in Hgate. discriminate Hgate. }
    split; [reflexivity |].
    exact (started_run_resets_isProcessing createImage getCroppedImg
             (state c) src Hsrc Hne).
  - intros Hnone. unfold cropFinal.
    rewrite run_handleAutoCrop_falsy by (rewrite Hnone; reflexivity).
    simpl.
    pose proof (in_flight_has_source c Hreach Hnone) as Htk.
    unfold ui_invariant in Hinv. rewrite Htk in Hinv. exact Hinv.
  - intros evs c2 Hexec Htk.
    pose proof (reachable_invariant c2
                  (exec_reachable evs c c2 Hreach Hexec)) as Hinv2.
    unfold ui_invariant in Hinv2. rewrite Htk in Hinv2. exact Hinv2.
Qed.

Lemma crop_run_ends_with_flag_false_pending :
  reachable pendingConfig /\
  (exists c1,
      step ClickCrop pendingConfig = Some c1 /\
      isProcessing (state c1) = true) /\
  isProcessing (cropFinal (decodeOk portrait) renderFails
                  (state pendingConfig)) = false /\
  isProcessing (cropFinal decodeFails renderFails
                  (state pendingConfig)) = false /\
  imageSrc (state initialConfig) = None /\
  isProcessing (cropFinal decodeFails renderFails
                  (state initialConfig)) = false.
Proof.
  split; [exact pendingConfig_reachable |].
  destruct (crop_run_ends_with_flag_false (decodeOk portrait) renderFails
              pendingConfig pendingConfig_reachable) as (Hrun & _ & _).
  destruct (Hrun _ eq_refl) as (Hentry & _ & Hend & _).
  split; [eexists; split; [reflexivity | exact Hentry] |].
  split; [exact Hend |].
  destruct (crop_run_ends_with_flag_false decodeFails renderFails
              pendingConfig pendingConfig_reachable) as (Hrun' & _ & _).
  destruct (Hrun' _ eq_refl) as (_ & _ & Hend' & _).
  split; [exact Hend' |].
  destruct (crop_run_ends_with_flag_false decodeFails renderFails
              initialConfig reachable_initial) as (_ & Hnull & _).
  split; [reflexivity | exact (Hnull eq_refl)].
Defined.
